(** * The Molch OAuth 2.0 strategy ([lib/strategy.js]): a shallow embedding

    The module exports one constructor, [Strategy], and two prototype
    methods, [userProfile] and [authorizationParams].  Everything the module
    delegates to (passport-oauth2, Node's [url] and [JSON]) is modelled only
    as far as the module reads it. *)

From Stdlib Require Import ZArith List String Ascii Bool Lia.
From stdpp Require Import gmap strings list fin_maps.

Set Warnings "-register-all".
Open Scope Z_scope.

(** ** JavaScript strings

    A JavaScript string is a sequence of UTF-16 code units; [length] and
    [indexOf] count code units.  Source literals are ASCII, and [js] turns a
    literal into its code units. *)

Abbreviation jsstring := (list N).

Definition js (s : string) : jsstring :=
  map N_of_ascii (list_ascii_of_string s).

(** JSON texts are full of double quotes; [json_text] reads a literal in which
    every apostrophe stands for the double quote (code unit 34). *)
Definition json_text (s : string) : jsstring :=
  map (fun c => if N.eqb c 39 then 34%N else c) (js s).

(** [s.length] *)
Definition str_length (s : jsstring) : Z := Z.of_nat (length s).

(** Does [pat] occur at the very start of [s]? *)
Fixpoint starts_with (pat s : jsstring) : bool :=
  match pat, s with
  | [], _ => true
  | _ :: _, [] => false
  | p :: pat', c :: s' => N.eqb p c && starts_with pat' s'
  end.

(** [String.prototype.indexOf]: position of the first occurrence of [pat] in
    [s], or [-1] when there is none. *)
Fixpoint indexOf_from (i : Z) (s pat : jsstring) : Z :=
  if starts_with pat s then i
  else match s with
       | [] => -1
       | _ :: s' => indexOf_from (i + 1) s' pat
       end.

Definition indexOf (s pat : jsstring) : Z := indexOf_from 0 s pat.

(** ** JavaScript values

    The values the module handles are the results of [JSON.parse] and the
    members of a loosely typed options object.  A number is kept as the
    decimal literal [mant * 10^expo] it was read from. *)

Inductive value :=
| VUndefined
| VNull
| VBool (b : bool)
| VNum (mant expo : Z)
| VStr (s : jsstring)
| VArr (elems : list value)
| VObj (fields : list (jsstring * value)).

(** A decimal literal denotes a non-zero double unless it is zero or rounds
    to zero: the least positive double is [2^-1074], and everything up to
    and including the midpoint [2^-1075] rounds to [0]. *)
Definition num_nonzero (mant expo : Z) : bool :=
  if mant =? 0 then false
  else if 0 <=? expo then true
  else 10 ^ (- expo) <? Z.abs mant * 2 ^ 1075.

(** ToBoolean, as applied by [if], [&&] and [||]. *)
Definition truthy (v : value) : bool :=
  match v with
  | VUndefined | VNull => false
  | VBool b => b
  | VNum m e => num_nonzero m e
  | VStr s => match s with [] => false | _ => true end
  | VArr _ | VObj _ => true
  end.

Definition jsstring_eqb (a b : jsstring) : bool :=
  bool_decide (a = b).

(** Own-property lookup in an object literal or a parsed JSON object. *)
Fixpoint assoc (k : jsstring) (fields : list (jsstring * value)) : option value :=
  match fields with
  | [] => None
  | (k', v) :: rest => if jsstring_eqb k k' then Some v else assoc k rest
  end.

(** Assigning a property keeps its position when the key exists already and
    appends it otherwise. *)
Fixpoint set_prop (fields : list (jsstring * value)) (k : jsstring) (v : value)
  : list (jsstring * value) :=
  match fields with
  | [] => [(k, v)]
  | (k', v') :: rest =>
      if jsstring_eqb k k' then (k, v) :: rest else (k', v') :: set_prop rest k v
  end.

(** [v.k] for a value [v] that is neither [undefined] nor [null], and a name
    [k] that no built-in prototype defines (the module reads [error],
    [message], [code] and [error_description] only): an object answers with
    its own property, everything else with [undefined]. *)
Definition get (v : value) (k : jsstring) : value :=
  match v with
  | VObj fields => match assoc k fields with Some x => x | None => VUndefined end
  | _ => VUndefined
  end.

(** ** Strategy construction (strategy.js, lines 45-60)

    [options] holds the string options the constructor reads; a record of
    [None]s stands for [{}] and for a missing argument alike (line 46).  The
    base constructor of line 50 is passport-oauth2's: of [this] the model
    keeps the two endpoints handed to it and the three properties the module
    sets itself. *)

Record options := {
  authorizationURL : option jsstring;
  tokenURL : option jsstring;
  userProfileURL : option jsstring
}.

Record strategy := {
  base_authorizationURL : jsstring;
  base_tokenURL : jsstring;
  name : jsstring;
  _userProfileURL : jsstring;
  _userProfileFormat : jsstring
}.

(** [o || d] for an optional string option: [undefined] and the empty string
    are falsy. *)
Definition or_default (o : option jsstring) (d : jsstring) : jsstring :=
  match o with
  | Some s => if truthy (VStr s) then s else d
  | None => d
  end.

(** Lines 55-59: the format is decided by comparing the position of the first
    ['/userinfo'] with the pathname's length minus 9. *)
Definition format_of_pathname (pathname : jsstring) : jsstring :=
  if indexOf pathname (js "/userinfo") =? str_length pathname - str_length (js "/userinfo")
  then js "openid"
  else js "molch".

Section Construction.

(** [uri.parse(u).pathname], from Node's [url] module, which is not part of
    this module and stays a parameter of the constructor. *)
Variable uri_parse_pathname : jsstring -> jsstring.

Definition Strategy (opts : options) : strategy :=
  let profileURL :=
    or_default (userProfileURL opts) (js "https://auth.molch.at/oauth2/userinfo/index.pl") in
  {| base_authorizationURL :=
       or_default (authorizationURL opts) (js "https://auth.molch.at/oauth2/authorize");
     base_tokenURL :=
       or_default (tokenURL opts) (js "https://auth.molch.at/oauth2/token/index.pl");
     name := js "molch";
     _userProfileURL := profileURL;
     _userProfileFormat := format_of_pathname (uri_parse_pathname profileURL) |}.

End Construction.

(** The specification's notion: the path ends with the suffix. *)
Definition ends_with (s suffix : jsstring) : Prop :=
  exists front, s = front ++ suffix.

(** ** [JSON.parse]

    A recursive-descent reader for the JSON grammar (ECMA-404), as
    [JSON.parse] applies it: one value surrounded by optional white space,
    with a repeated object key keeping its last value.  [None] stands for the
    [SyntaxError] that [JSON.parse] throws. *)

Definition is_ws (c : N) : bool :=
  N.eqb c 32 || N.eqb c 9 || N.eqb c 10 || N.eqb c 13.

Definition is_digit (c : N) : bool := N.leb 48 c && N.leb c 57.

Definition digit_val (c : N) : Z := Z.of_N c - 48.

Definition hex_val (c : N) : option N :=
  if N.leb 48 c && N.leb c 57 then Some (c - 48)%N
  else if N.leb 65 c && N.leb c 70 then Some (c - 55)%N
  else if N.leb 97 c && N.leb c 102 then Some (c - 87)%N
  else None.

Fixpoint skip_ws (s : jsstring) : jsstring :=
  match s with
  | c :: s' => if is_ws c then skip_ws s' else s
  | [] => []
  end.

(** The input after the code unit [c], when the input starts with it. *)
Definition expect (c : N) (s : jsstring) : option jsstring :=
  match s with
  | x :: rest => if N.eqb x c then Some rest else None
  | [] => None
  end.

(** The same after optional white space. *)
Definition token (c : N) (s : jsstring) : option jsstring := expect c (skip_ws s).

(** Reads a run of decimal digits: their value continuing [acc], how many
    there were, and the rest of the input. *)
Fixpoint read_digits (s : jsstring) (acc : Z) (count : Z) : Z * Z * jsstring :=
  match s with
  | c :: s' => if is_digit c then read_digits s' (10 * acc + digit_val c) (count + 1)
               else (acc, count, s)
  | [] => (acc, count, [])
  end.

(** The integer part: a single [0], or a non-zero digit followed by digits. *)
Definition read_int (s : jsstring) : option (Z * jsstring) :=
  match s with
  | c :: s' =>
      if N.eqb c 48 then Some (0, s')
      else if is_digit c then
        let '(n, _, rest) := read_digits s' (digit_val c) 1 in Some (n, rest)
      else None
  | [] => None
  end.

(** The optional fraction after [.]: the mantissa extended by the fraction's
    digits, and the number of those digits. *)
Definition read_frac (mant : Z) (s : jsstring) : option (Z * Z * jsstring) :=
  match expect 46 s with
  | Some s' =>
      let '(n, count, rest) := read_digits s' mant 0 in
      if count =? 0 then None else Some (n, count, rest)
  | None => Some (mant, 0, s)
  end.

(** The digits of an exponent, negated after [-]. *)
Definition read_exp_digits (neg : bool) (s : jsstring) : option (Z * jsstring) :=
  let '(n, count, rest) := read_digits s 0 0 in
  if count =? 0 then None else Some (if neg then - n else n, rest).

(** The optional exponent after [e] or [E]. *)
Definition read_exp (s : jsstring) : option (Z * jsstring) :=
  match (match expect 101 s with Some s' => Some s' | None => expect 69 s end) with
  | Some s' =>
      match expect 43 s' with
      | Some s'' => read_exp_digits false s''
      | None =>
          match expect 45 s' with
          | Some s'' => read_exp_digits true s''
          | None => read_exp_digits false s'
          end
      end
  | None => Some (0, s)
  end.

Definition read_number (s : jsstring) : option (value * jsstring) :=
  let '(neg, s1) := match expect 45 s with Some s' => (true, s') | None => (false, s) end in
  match read_int s1 with
  | None => None
  | Some (i, s2) =>
      match read_frac i s2 with
      | None => None
      | Some (m, fd, s3) =>
          match read_exp s3 with
          | None => None
          | Some (e, s4) => Some (VNum (if neg then - m else m) (e - fd), s4)
          end
      end
  end.

(** The code unit an escape letter stands for. *)
Definition escape_code (e : N) : option N :=
  if N.eqb e 34 then Some 34%N
  else if N.eqb e 92 then Some 92%N
  else if N.eqb e 47 then Some 47%N
  else if N.eqb e 98 then Some 8%N
  else if N.eqb e 102 then Some 12%N
  else if N.eqb e 110 then Some 10%N
  else if N.eqb e 114 then Some 13%N
  else if N.eqb e 116 then Some 9%N
  else None.

(** The code unit of [\uXXXX], from its four hexadecimal digits. *)
Definition unicode_code (h1 h2 h3 h4 : N) : option N :=
  match hex_val h1, hex_val h2, hex_val h3, hex_val h4 with
  | Some a, Some b, Some c, Some d => Some (4096 * a + 256 * b + 16 * c + d)%N
  | _, _, _, _ => None
  end.

(** The characters of a string after its opening quote, up to and including
    the closing quote.  [acc] holds the code units read so far, reversed. *)
Fixpoint read_string (s : jsstring) (acc : jsstring) : option (jsstring * jsstring) :=
  match s with
  | [] => None
  | c :: s' =>
      if N.eqb c 34 then Some (rev acc, s')
      else if N.eqb c 92 then
        match s' with
        | [] => None
        | e :: s'' =>
            if N.eqb e 117 then
              match s'' with
              | h1 :: h2 :: h3 :: h4 :: rest =>
                  match unicode_code h1 h2 h3 h4 with
                  | Some u => read_string rest (u :: acc)
                  | None => None
                  end
              | _ => None
              end
            else
              match escape_code e with
              | Some u => read_string s'' (u :: acc)
              | None => None
              end
        end
      else if N.ltb c 32 then None
      else read_string s' (c :: acc)
  end.

(** A literal name ([true], [false], [null]) at the start of the input. *)
Definition read_literal (word : jsstring) (v : value) (s : jsstring)
  : option (value * jsstring) :=
  if starts_with word s then Some (v, drop (length word) s) else None.

(** A value that is not an object or an array, starting at [c]. *)
Definition read_scalar (c : N) (r : jsstring) : option (value * jsstring) :=
  if N.eqb c 34 then
    match read_string r [] with
    | Some (str, r') => Some (VStr str, r')
    | None => None
    end
  else if N.eqb c 116 then read_literal (js "true") (VBool true) (c :: r)
  else if N.eqb c 102 then read_literal (js "false") (VBool false) (c :: r)
  else if N.eqb c 110 then read_literal (js "null") VNull (c :: r)
  else read_number (c :: r).

(** Values, object members and array elements.  Every call consumes input
    before it recurses, so the fuel [JSON_parse] provides is never used up
    (see [read_fuel]). *)
Fixpoint read_value (fuel : nat) (s : jsstring) : option (value * jsstring) :=
  match fuel with
  | O => None
  | S f =>
      match skip_ws s with
      | [] => None
      | c :: r =>
          if N.eqb c 123 then
            match token 125 r with
            | Some r' => Some (VObj [], r')
            | None => read_members f r []
            end
          else if N.eqb c 91 then
            match token 93 r with
            | Some r' => Some (VArr [], r')
            | None => read_elements f r []
            end
          else read_scalar c r
      end
  end

with read_members (fuel : nat) (s : jsstring) (acc : list (jsstring * value))
  : option (value * jsstring) :=
  match fuel with
  | O => None
  | S f =>
      match token 34 s with
      | None => None
      | Some r =>
          match read_string r [] with
          | None => None
          | Some (k, r1) =>
              match token 58 r1 with
              | None => None
              | Some r2 =>
                  match read_value f r2 with
                  | None => None
                  | Some (v, r3) =>
                      match token 44 r3 with
                      | Some r4 => read_members f r4 (set_prop acc k v)
                      | None =>
                          match token 125 r3 with
                          | Some r4 => Some (VObj (set_prop acc k v), r4)
                          | None => None
                          end
                      end
                  end
              end
          end
      end
  end

with read_elements (fuel : nat) (s : jsstring) (acc : list value)
  : option (value * jsstring) :=
  match fuel with
  | O => None
  | S f =>
      match read_value f s with
      | None => None
      | Some (v, r1) =>
          match token 44 r1 with
          | Some r2 => read_elements f r2 (acc ++ [v])
          | None =>
              match token 93 r1 with
              | Some r2 => Some (VArr (acc ++ [v]), r2)
              | None => None
              end
          end
      end
  end.

Definition JSON_parse (text : jsstring) : option value :=
  match read_value (S (length text)) text with
  | Some (v, rest) => match skip_ws rest with [] => Some v | _ => None end
  | None => None
  end.

(** ** Errors

    [MolchAPIError] is the constructor of [lib/errors/molchapierror.js]: it
    sets [name], [message] and [code]. *)

Record api_error := {
  api_name : jsstring;
  api_message : value;
  api_code : value
}.

Definition MolchAPIError (message code : value) : api_error :=
  {| api_name := js "MolchAPIError"; api_message := message; api_code := code |}.

(** What the OAuth2 client hands to the callback when the GET fails: an
    object with the response's status code and body, or an [Error] of the
    socket, which has no [data]. *)
Record transport_error := {
  statusCode : option Z;
  data : option jsstring
}.

(** Modelled from the spec: [lib/errors/userinfoerror.js], required on line 7,
    is not among the sources; [UserInfoError] records the two constructor
    arguments, which the data model names description and error code.

    The other error values [userProfile] passes to [done] are the module's
    own [MolchAPIError], passport-oauth2's [InternalOAuthError], built from a
    message and the wrapped error, and the built-in [Error]. *)
Inductive error_value :=
| APIError (e : api_error)
| UserInfoError (description code : value)
| InternalOAuthError (message : jsstring) (err : transport_error)
| Error (message : jsstring).

Inductive exn :=
| ReferenceError (identifier : jsstring)
| TypeError (message : jsstring).

(** How a run of the GET callback ends: [done(err)], [done(null, profile)],
    or an exception that leaves the callback. *)
Inductive outcome :=
| Done_error (e : error_value)
| Done_profile (profile : gmap jsstring value)
| Throws (x : exn).

Inductive response :=
| Failure (err : transport_error)
| Success (body : jsstring).

(** ** Free identifiers

    The module declares [OAuth2Strategy], [util], [uri],
    [InternalOAuthError], [MolchAPIError], [UserInfoError] and [Strategy].
    [userProfile] also names [MolchPlusAPIError], [OpenIDProfile] and
    [MolchPlusProfile], which no declaration of the module binds: they are
    looked up in the global object when the line runs.  A global is either a
    constructor taking two arguments or an object with a [parse] method. *)

Inductive global_binding :=
| GConstructor (construct : value -> value -> error_value)
| GModule (parse : value -> exn + gmap jsstring value).

(** Node's global object defines none of the three names. *)
Definition node_globals : gmap jsstring global_binding := ∅.

(** [new C(a, b)] for a free identifier [C]. *)
Definition construct_global (G : gmap jsstring global_binding) (ident : jsstring)
    (a b : value) : exn + error_value :=
  match G !! ident with
  | None => inl (ReferenceError ident)
  | Some (GConstructor c) => inr (c a b)
  | Some (GModule _) => inl (TypeError (ident ++ js " is not a constructor"))
  end.

(** [M.parse(json)] for a free identifier [M]. *)
Definition parse_with_global (G : gmap jsstring global_binding) (ident : jsstring)
    (json : value) : exn + gmap jsstring value :=
  match G !! ident with
  | None => inl (ReferenceError ident)
  | Some (GModule p) => p json
  | Some (GConstructor _) => inl (TypeError (ident ++ js ".parse is not a function"))
  end.

(** ** [Strategy.prototype.userProfile] (lines 80-122)

    The body of the callback given to [this._oauth2.get], as a function of
    what the client reports. *)

(** Lines 86-90: [json] stays [undefined] unless [err.data] is truthy and
    parses. *)
Definition error_json (err : transport_error) : value :=
  match data err with
  | Some d =>
      if truthy (VStr d)
      then match JSON_parse d with Some j => j | None => VUndefined end
      else VUndefined
  | None => VUndefined
  end.

(** Line 92: [json && json.error && json.error.message] *)
Definition api_error_shape (json : value) : bool :=
  truthy json && truthy (get json (js "error"))
  && truthy (get (get json (js "error")) (js "message")).

(** Line 94: [json && json.error && json.error_description] *)
Definition oauth_error_shape (json : value) : bool :=
  truthy json && truthy (get json (js "error"))
  && truthy (get json (js "error_description")).

(** Lines 107-114: the [switch] on the format. *)
Definition parser_for (format : jsstring) : jsstring :=
  if jsstring_eqb format (js "openid") then js "OpenIDProfile" else js "MolchPlusProfile".

(** Lines 116-118. *)
Definition finish_profile (profile : gmap jsstring value) (body : jsstring) (json : value)
  : gmap jsstring value :=
  <[js "_json" := json]> (<[js "_raw" := VStr body]> (<[js "provider" := VStr (js "molch")]> profile)).

Definition userProfile (G : gmap jsstring global_binding) (self : strategy) (r : response)
  : outcome :=
  match r with
  | Failure err =>
      let json := error_json err in
      if api_error_shape json then
        match construct_global G (js "MolchPlusAPIError")
                (get (get json (js "error")) (js "message"))
                (get (get json (js "error")) (js "code")) with
        | inl x => Throws x
        | inr e => Done_error e
        end
      else if oauth_error_shape json then
        Done_error (UserInfoError (get json (js "error_description")) (get json (js "error")))
      else
        Done_error (InternalOAuthError (js "Failed to fetch user profile") err)
  | Success body =>
      match JSON_parse body with
      | None => Done_error (Error (js "Failed to parse user profile"))
      | Some json =>
          match parse_with_global G (parser_for (_userProfileFormat self)) json with
          | inl x => Throws x
          | inr profile => Done_profile (finish_profile profile body json)
          end
      end
  end.

(** ** [Strategy.prototype.authorizationParams] (lines 132-171) *)

(** [options.k]: a missing property reads as [undefined]. *)
Definition option_value (opts : gmap jsstring value) (k : jsstring) : value :=
  default VUndefined (opts !! k).

(** [if (options.src) { params[key] = options.src; }] *)
Definition copy_if_truthy (opts : gmap jsstring value) (src key : jsstring)
    (params : gmap jsstring value) : gmap jsstring value :=
  if truthy (option_value opts src) then <[key := option_value opts src]> params else params.

(** [if (options.src) { params[key] = true; }] *)
Definition flag_if_truthy (opts : gmap jsstring value) (src key : jsstring)
    (params : gmap jsstring value) : gmap jsstring value :=
  if truthy (option_value opts src) then <[key := VBool true]> params else params.

Definition authorizationParams (opts : gmap jsstring value) : gmap jsstring value :=
  let params := ∅ in
  let params := copy_if_truthy opts (js "accessType") (js "access_type") params in
  let params := copy_if_truthy opts (js "prompt") (js "prompt") params in
  let params := copy_if_truthy opts (js "loginHint") (js "login_hint") params in
  let params := flag_if_truthy opts (js "includeGrantedScopes") (js "include_granted_scopes") params in
  let params := copy_if_truthy opts (js "display") (js "display") params in
  let params := copy_if_truthy opts (js "openIDRealm") (js "openid.realm") params in
  let params := copy_if_truthy opts (js "approvalPrompt") (js "approval_prompt") params in
  let params := copy_if_truthy opts (js "userID") (js "user_id") params in
  params.

(** The eight recognized options with the parameter each one feeds. *)
Definition recognized : list (jsstring * jsstring) :=
  [ (js "accessType", js "access_type");
    (js "prompt", js "prompt");
    (js "loginHint", js "login_hint");
    (js "includeGrantedScopes", js "include_granted_scopes");
    (js "display", js "display");
    (js "openIDRealm", js "openid.realm");
    (js "approvalPrompt", js "approval_prompt");
    (js "userID", js "user_id") ].

(** The value a supplied, truthy option contributes. *)
Definition contribution (src : jsstring) (v : value) : value :=
  if decide (src = js "includeGrantedScopes") then VBool true else v.

(** ** Reading the two methods as a whole *)

(** An option given as the empty string, read as a missing one. *)
Definition without_empty (o : option jsstring) : option jsstring :=
  match o with
  | Some [] => None
  | _ => o
  end.

(** One of the eight tests of [authorizationParams], for an entry of
    [recognized]. *)
Definition assign (opts : gmap jsstring value) (params : gmap jsstring value)
    (entry : jsstring * jsstring) : gmap jsstring value :=
  if truthy (option_value opts entry.1)
  then <[entry.2 := contribution entry.1 (option_value opts entry.1)]> params
  else params.

(** The recognized options whose value is truthy. *)
Definition supplied (opts : gmap jsstring value) : list (jsstring * jsstring) :=
  List.filter (fun entry => truthy (option_value opts entry.1)) recognized.

(** * Properties *)

(** ** Format selection *)

Lemma starts_with_app (pat back : jsstring) : starts_with pat (pat ++ back) = true.
Proof.
  induction pat as [|p pat IH]; simpl; [reflexivity|].
  rewrite N.eqb_refl. exact IH.
Qed.

Lemma starts_with_inv (pat s : jsstring) :
  starts_with pat s = true -> exists back, s = pat ++ back.
Proof.
  revert s. induction pat as [|p pat IH]; intros s H.
  - exists s. reflexivity.
  - destruct s as [|c s]; simpl in H; [discriminate|].
    apply andb_prop in H as [Hc Hs]. apply N.eqb_eq in Hc. subst c.
    destruct (IH s Hs) as [back ->]. exists back. reflexivity.
Qed.

(** What [indexOf] answers: [-1], or the offset of an occurrence. *)
Lemma indexOf_from_sound (pat s : jsstring) (i : Z) :
  indexOf_from i s pat = -1 /\ starts_with pat s = false
  \/ exists front back,
       s = front ++ pat ++ back /\ indexOf_from i s pat = i + str_length front.
Proof.
  revert i. induction s as [|c s IH]; intros i; simpl.
  - destruct (starts_with pat []) eqn:E.
    + right. destruct (starts_with_inv _ _ E) as [back Hb].
      exists [], back. split; [exact Hb | unfold str_length; simpl; lia].
    + left. split; reflexivity.
  - destruct (starts_with pat (c :: s)) eqn:E.
    + right. destruct (starts_with_inv _ _ E) as [back Hb].
      exists [], back. split; [exact Hb | unfold str_length; simpl; lia].
    + destruct (IH (i + 1)) as [[H _]|(front & back & Hs & Hi)].
      * left. split; [exact H | reflexivity].
      * right. exists (c :: front), back. split; [rewrite Hs; reflexivity|].
        rewrite Hi. unfold str_length. simpl length. lia.
Qed.

(** [indexOf] never answers beyond the first occurrence. *)
Lemma indexOf_from_first (pat front back : jsstring) (i : Z) :
  i <= indexOf_from i (front ++ pat ++ back) pat <= i + str_length front.
Proof.
  revert i. induction front as [|c front IH]; intros i.
  - simpl app. unfold str_length. simpl length.
    assert (H : indexOf_from i (pat ++ back) pat = i).
    { destruct (pat ++ back) eqn:E; simpl; rewrite <- E, starts_with_app; reflexivity. }
    rewrite H. lia.
  - simpl app. simpl indexOf_from.
    destruct (starts_with pat (c :: front ++ pat ++ back)).
    + unfold str_length. simpl length. lia.
    + specialize (IH (i + 1)). unfold str_length in *. simpl length. lia.
Qed.

Lemma str_length_app (a b : jsstring) : str_length (a ++ b) = str_length a + str_length b.
Proof. unfold str_length. rewrite length_app. lia. Qed.

Lemma format_of_pathname_openid (p : jsstring) :
  format_of_pathname p = js "openid"
  <-> indexOf p (js "/userinfo") = str_length p - 9.
Proof.
  unfold format_of_pathname.
  change (str_length (js "/userinfo")) with 9.
  destruct (Z.eqb_spec (indexOf p (js "/userinfo")) (str_length p - 9)) as [E|E].
  - split; [intros _; exact E | reflexivity].
  - split; [intros H; vm_compute in H; discriminate | intros H; contradiction].
Qed.

(** When the constructor picks ['openid'], the pathname does end with
    ['/userinfo'], unless it is an eight-unit pathname without ['/userinfo']. *)
Lemma format_openid_inv (p : jsstring) :
  format_of_pathname p = js "openid" ->
  ends_with p (js "/userinfo")
  \/ (str_length p = 8 /\ indexOf p (js "/userinfo") = -1).
Proof.
  intros H. apply format_of_pathname_openid in H.
  unfold indexOf in H.
  destruct (indexOf_from_sound (js "/userinfo") p 0) as [[Hm _]|(front & back & Hs & Hi)].
  - right. unfold indexOf. split; [lia | exact Hm].
  - left. rewrite Hi in H. subst p.
    rewrite !str_length_app in H. change (str_length (js "/userinfo")) with 9 in H.
    assert (Hb : back = []).
    { destruct back; [reflexivity|]. unfold str_length in H. simpl length in H. lia. }
    subst back. exists front. reflexivity.
Qed.

(** When the pathname ends with ['/userinfo'] and the constructor still picks
    ['molch'], ['/userinfo'] occurs earlier in the pathname as well. *)
Lemma format_molch_suffix_inv (p : jsstring) :
  ends_with p (js "/userinfo") ->
  format_of_pathname p = js "molch" ->
  exists front back, p = front ++ js "/userinfo" ++ back /\ back <> [].
Proof.
  intros [front0 Hp] H.
  destruct (indexOf_from_sound (js "/userinfo") p 0) as [[Hm _]|(front & back & Hs & Hi)].
  - exfalso. pose proof (indexOf_from_first (js "/userinfo") front0 [] 0) as Hf.
    rewrite app_nil_r, <- Hp, Hm in Hf. lia.
  - exists front, back. split; [exact Hs|]. intros ->.
    assert (Ho : format_of_pathname p = js "openid").
    { apply format_of_pathname_openid. unfold indexOf. rewrite Hi, Hs.
      rewrite !str_length_app. change (str_length (js "/userinfo")) with 9.
      unfold str_length. simpl length. lia. }
    rewrite Ho in H. vm_compute in H. discriminate.
Qed.

(** The constructor's format is [format_of_pathname] of the parsed profile
    URL, whatever [uri.parse] is. *)
Lemma Strategy_format (pathname_of : jsstring -> jsstring) (opts : options) :
  _userProfileFormat (Strategy pathname_of opts)
  = format_of_pathname
      (pathname_of (or_default (userProfileURL opts)
                      (js "https://auth.molch.at/oauth2/userinfo/index.pl"))).
Proof. reflexivity. Qed.

Example format_openid_path :
  format_of_pathname (js "/oauth2/v3/userinfo") = js "openid".
Proof. vm_compute. reflexivity. Qed.

Example format_default_path :
  format_of_pathname (js "/oauth2/userinfo/index.pl") = js "molch".
Proof. vm_compute. reflexivity. Qed.

(** C1: the constructor does not decide by suffix.  The pathname ['/profile']
    does not end with ['/userinfo'] and gets the format ['openid']; the
    pathname ['/userinfo/userinfo'] ends with ['/userinfo'] and gets the
    format ['molch']. *)
Theorem format_of_pathname_is_not_suffix_test :
  (format_of_pathname (js "/profile") = js "openid"
   /\ ~ ends_with (js "/profile") (js "/userinfo"))
  /\ (format_of_pathname (js "/userinfo/userinfo") = js "molch"
      /\ ends_with (js "/userinfo/userinfo") (js "/userinfo")).
Proof.
  repeat split.
  - intros [front H]. apply (f_equal (@length N)) in H.
    rewrite length_app in H. simpl in H. lia.
  - exists (js "/userinfo"). reflexivity.
Qed.

(** ** [JSON.parse] on sample texts *)

Example parse_nested :
  JSON_parse (json_text " {'a': [1, 2.50, -3e2], 'a': {'b': [[]], 'c': null}} ")
  = Some (VObj [(js "a", VObj [(js "b", VArr [VArr []]); (js "c", VNull)])]).
Proof. vm_compute. reflexivity. Qed.

Example parse_numbers :
  JSON_parse (json_text "[1, 2.50, -3e2, 0, 1E-5]")
  = Some (VArr [VNum 1 0; VNum 250 (-2); VNum (-3) 2; VNum 0 0; VNum 1 (-5)]).
Proof. vm_compute. reflexivity. Qed.

Example parse_escapes :
  JSON_parse (json_text "'a\nA\/'") = Some (VStr [97; 10; 65; 47]%N).
Proof. vm_compute. reflexivity. Qed.

Example parse_rejects :
  map JSON_parse
      [ js ""; js "<html>"; json_text "[1,]"; json_text "{'a':1,}"; js "01"; js "1.";
        js "tru"; js "nullx"; json_text "{'a' 1}"; json_text "'open"; js "[[[[" ]
  = repeat None 11.
Proof. vm_compute. reflexivity. Qed.

(** Numbers that are zero, or too small for a double, are falsy. *)
Example falsy_numbers :
  map truthy [VNum 0 5; VNum 1 (-400); VNum 2 (-324); VNum 3 (-324); VNum 5 (-324); VNum 1 0]
  = [false; false; false; true; true; true].
Proof. vm_compute. reflexivity. Qed.

(** ** [JSON.parse]: the fuel is enough *)

Section Fuel.

Local Open Scope nat_scope.

Lemma skip_ws_length (s : jsstring) : length (skip_ws s) <= length s.
Proof.
  induction s as [|c s IH]; simpl; [lia|].
  destruct (is_ws c); simpl; lia.
Qed.

Lemma expect_length (c : N) (s r : jsstring) :
  expect c s = Some r -> length s = S (length r).
Proof.
  destruct s as [|x s]; simpl; [discriminate|].
  destruct (N.eqb x c); [|discriminate]. intros [= ->]. reflexivity.
Qed.

Lemma token_length (c : N) (s r : jsstring) :
  token c s = Some r -> length r < length s.
Proof.
  unfold token. intros H. apply expect_length in H.
  pose proof (skip_ws_length s). lia.
Qed.

Lemma read_digits_length (s : jsstring) :
  forall acc count, length (read_digits s acc count).2 <= length s.
Proof.
  induction s as [|c s IH]; intros acc count; simpl; [lia|].
  destruct (is_digit c); simpl; [|lia].
  specialize (IH (10 * acc + digit_val c)%Z (count + 1)%Z). lia.
Qed.

Lemma read_int_length (s r : jsstring) (n : Z) :
  read_int s = Some (n, r) -> length r < length s.
Proof.
  destruct s as [|c s]; simpl; [discriminate|].
  destruct (N.eqb c 48); [intros [= _ ->]; lia|].
  destruct (is_digit c); [|discriminate].
  pose proof (read_digits_length s (digit_val c) 1%Z) as Hd.
  destruct (read_digits s (digit_val c) 1%Z) as [[n' k] rest]. simpl in Hd.
  intros [= _ ->]. lia.
Qed.

Lemma read_frac_length (mant : Z) (s r : jsstring) (x : Z * Z) :
  read_frac mant s = Some (x, r) -> length r <= length s.
Proof.
  unfold read_frac. destruct (expect 46 s) as [s'|] eqn:E.
  - apply expect_length in E.
    pose proof (read_digits_length s' mant 0) as Hd.
    destruct (read_digits s' mant 0) as [[n k] rest]. simpl in Hd.
    destruct (k =? 0)%Z; [discriminate|]. intros [= _ ->]. lia.
  - intros [= _ ->]. lia.
Qed.

Lemma read_exp_digits_length (neg : bool) (s r : jsstring) (e : Z) :
  read_exp_digits neg s = Some (e, r) -> length r <= length s.
Proof.
  unfold read_exp_digits.
  pose proof (read_digits_length s 0 0) as Hd.
  destruct (read_digits s 0 0) as [[n k] rest]. simpl in Hd.
  destruct (k =? 0)%Z; [discriminate|]. intros [= _ ->]. lia.
Qed.

Lemma read_exp_length (s r : jsstring) (e : Z) :
  read_exp s = Some (e, r) -> length r <= length s.
Proof.
  unfold read_exp.
  assert (Hm : forall s', match expect 101 s with
                          | Some s0 => Some s0
                          | None => expect 69 s
                          end = Some s' -> length s = S (length s')).
  { intros s'. destruct (expect 101 s) eqn:E.
    - intros [= <-]. apply (expect_length _ _ _ E).
    - apply expect_length. }
  destruct (match expect 101 s with Some s0 => Some s0 | None => expect 69 s end)
    as [s'|]; [|intros [= _ ->]; lia].
  specialize (Hm s' eq_refl).
  destruct (expect 43 s') as [s''|] eqn:E1.
  { apply expect_length in E1. intros H. apply read_exp_digits_length in H. lia. }
  destruct (expect 45 s') as [s''|] eqn:E2.
  { apply expect_length in E2. intros H. apply read_exp_digits_length in H. lia. }
  intros H. apply read_exp_digits_length in H. lia.
Qed.

Lemma read_number_length (s r : jsstring) (v : value) :
  read_number s = Some (v, r) -> length r < length s.
Proof.
  unfold read_number.
  assert (Hs : length (match expect 45 s with
                       | Some s' => (true, s') | None => (false, s) end).2 <= length s).
  { destruct (expect 45 s) eqn:E; simpl; [apply expect_length in E|]; lia. }
  destruct (match expect 45 s with Some s' => (true, s') | None => (false, s) end)
    as [neg s1]. simpl in Hs.
  destruct (read_int s1) as [[i s2]|] eqn:Hi; [|discriminate].
  apply read_int_length in Hi.
  destruct (read_frac i s2) as [[[m fd] s3]|] eqn:Hf; [|discriminate].
  apply read_frac_length in Hf.
  destruct (read_exp s3) as [[e s4]|] eqn:He; [|discriminate].
  apply read_exp_length in He.
  intros [= _ ->]. lia.
Qed.

Lemma read_string_length (n : nat) :
  forall s acc k r, length s <= n -> read_string s acc = Some (k, r) ->
                    length r < length s.
Proof.
  induction n as [|n IH]; intros s acc k r Hn H.
  - destruct s; [discriminate | simpl in Hn; lia].
  - destruct s as [|c s]; [discriminate|]. simpl in Hn. simpl in H.
    destruct (N.eqb c 34); [injection H as _ <-; simpl; lia|].
    destruct (N.eqb c 92).
    + destruct s as [|e s]; [discriminate|]. simpl in Hn.
      destruct (N.eqb e 117).
      * destruct s as [|h1 [|h2 [|h3 [|h4 rest]]]]; try discriminate.
        destruct (unicode_code h1 h2 h3 h4); [|discriminate].
        apply IH in H; simpl in *; lia.
      * destruct (escape_code e); [|discriminate].
        apply IH in H; simpl in *; lia.
    + destruct (N.ltb c 32); [discriminate|].
      apply IH in H; simpl in *; lia.
Qed.

Lemma read_literal_length (word s r : jsstring) (v v' : value) :
  word <> [] -> read_literal word v s = Some (v', r) -> length r < length s.
Proof.
  unfold read_literal. intros Hw.
  destruct (starts_with word s) eqn:E; [|discriminate].
  destruct (starts_with_inv _ _ E) as [back ->].
  intros [= _ <-]. rewrite drop_app_length, length_app.
  destruct word; [contradiction | simpl; lia].
Qed.

Lemma read_scalar_length (c : N) (r0 r : jsstring) (v : value) :
  read_scalar c r0 = Some (v, r) -> length r < S (length r0).
Proof.
  unfold read_scalar.
  destruct (N.eqb c 34).
  { destruct (read_string r0 []) as [[str r']|] eqn:E; [|discriminate].
    apply (read_string_length (length r0)) in E; [|lia].
    intros [= _ <-]. lia. }
  destruct (N.eqb c 116).
  { intros H. apply read_literal_length in H; [exact H | discriminate]. }
  destruct (N.eqb c 102).
  { intros H. apply read_literal_length in H; [exact H | discriminate]. }
  destruct (N.eqb c 110).
  { intros H. apply read_literal_length in H; [exact H | discriminate]. }
  intros H. apply read_number_length in H. exact H.
Qed.

(** A successful read consumes input, and succeeds alike with any fuel
    that is at least the number of code units consumed. *)
Lemma read_fuel (F : nat) :
  (forall s v r, read_value F s = Some (v, r) ->
     length r < length s
     /\ forall f, length s - length r <= f -> read_value f s = Some (v, r))
  /\ (forall s acc v r, read_members F s acc = Some (v, r) ->
        length r < length s
        /\ forall f, length s - length r <= f -> read_members f s acc = Some (v, r))
  /\ (forall s acc v r, read_elements F s acc = Some (v, r) ->
        length r < length s
        /\ forall f, length s - length r <= f -> read_elements f s acc = Some (v, r)).
Proof.
  induction F as [|F (IHv & IHm & IHe)];
    [repeat split; intros; discriminate|].
  split; [|split].
  - intros s v r H. cbn [read_value] in H.
    pose proof (skip_ws_length s) as Hws.
    destruct (skip_ws s) as [|c r0] eqn:Hs; [discriminate|]. simpl in Hws.
    destruct (N.eqb c 123) eqn:Hc1.
    { destruct (token 125 r0) as [r'|] eqn:Ht.
      - injection H as <- <-. apply token_length in Ht as Hl.
        split; [lia|]. intros [|f] Hf; [lia|].
        cbn [read_value]. rewrite Hs, Hc1, Ht. reflexivity.
      - apply IHm in H as [Hl Hf']. split; [lia|]. intros [|f] Hf; [lia|].
        cbn [read_value]. rewrite Hs, Hc1, Ht. apply Hf'. lia. }
    destruct (N.eqb c 91) eqn:Hc2.
    { destruct (token 93 r0) as [r'|] eqn:Ht.
      - injection H as <- <-. apply token_length in Ht as Hl.
        split; [lia|]. intros [|f] Hf; [lia|].
        cbn [read_value]. rewrite Hs, Hc1, Hc2, Ht. reflexivity.
      - apply IHe in H as [Hl Hf']. split; [lia|]. intros [|f] Hf; [lia|].
        cbn [read_value]. rewrite Hs, Hc1, Hc2, Ht. apply Hf'. lia. }
    apply read_scalar_length in H as Hl.
    split; [lia|]. intros [|f] Hf; [lia|].
    cbn [read_value]. rewrite Hs, Hc1, Hc2. exact H.
  - intros s acc v r H. cbn [read_members] in H.
    destruct (token 34 s) as [r0|] eqn:H0; [|discriminate].
    apply token_length in H0 as L0.
    destruct (read_string r0 []) as [[k r1]|] eqn:H1; [|discriminate].
    apply (read_string_length (length r0)) in H1 as L1; [|lia].
    destruct (token 58 r1) as [r2|] eqn:H2; [|discriminate].
    apply token_length in H2 as L2.
    destruct (read_value F r2) as [[v1 r3]|] eqn:H3; [|discriminate].
    apply IHv in H3 as [L3 F3].
    destruct (token 44 r3) as [r4|] eqn:H4.
    { apply token_length in H4 as L4. apply IHm in H as [L5 F5].
      split; [lia|]. intros [|f] Hf; [lia|].
      cbn [read_members]. rewrite H0, H1, H2, (F3 f) by lia. rewrite H4.
      apply F5. lia. }
    destruct (token 125 r3) as [r4|] eqn:H5; [|discriminate].
    apply token_length in H5 as L5. injection H as <- <-.
    split; [lia|]. intros [|f] Hf; [lia|].
    cbn [read_members]. rewrite H0, H1, H2, (F3 f) by lia. rewrite H4, H5.
    reflexivity.
  - intros s acc v r H. cbn [read_elements] in H.
    destruct (read_value F s) as [[v1 r1]|] eqn:H1; [|discriminate].
    apply IHv in H1 as [L1 F1].
    destruct (token 44 r1) as [r2|] eqn:H2.
    { apply token_length in H2 as L2. apply IHe in H as [L3 F3].
      split; [lia|]. intros [|f] Hf; [lia|].
      cbn [read_elements]. rewrite (F1 f) by lia. rewrite H2. apply F3. lia. }
    destruct (token 93 r1) as [r2|] eqn:H3; [|discriminate].
    apply token_length in H3 as L3. injection H as <- <-.
    split; [lia|]. intros [|f] Hf; [lia|].
    cbn [read_elements]. rewrite (F1 f) by lia. rewrite H2, H3. reflexivity.
Qed.

(** Whatever fuel reads a complete value from [text], [JSON_parse] reads
    the same value: it fails only where the text is not JSON. *)
Lemma JSON_parse_complete (F : nat) (text rest : jsstring) (v : value) :
  read_value F text = Some (v, rest) -> skip_ws rest = [] ->
  JSON_parse text = Some v.
Proof.
  intros H Hr. destruct (read_fuel F) as [Hv _].
  destruct (Hv _ _ _ H) as [_ Hf].
  unfold JSON_parse. rewrite (Hf (S (length text))) by lia.
  rewrite Hr. reflexivity.
Qed.

Lemma JSON_parse_None (text : jsstring) :
  JSON_parse text = None ->
  forall F v rest, read_value F text = Some (v, rest) -> skip_ws rest <> [].
Proof.
  intros Hn F v rest H Hr.
  rewrite (JSON_parse_complete F text rest v H Hr) in Hn. discriminate.
Qed.

End Fuel.

(** ** Profile fetch: the failure path *)

Example parse_api_error :
  JSON_parse (json_text "{'error':{'message':'bad','code':7}}")
  = Some (VObj [(js "error",
                 VObj [(js "message", VStr (js "bad")); (js "code", VNum 7 0)])]).
Proof. vm_compute. reflexivity. Qed.

Example parse_oauth_error :
  JSON_parse (json_text "{'error':'invalid_grant','error_description':'expired'}")
  = Some (VObj [(js "error", VStr (js "invalid_grant"));
                (js "error_description", VStr (js "expired"))]).
Proof. vm_compute. reflexivity. Qed.

(** Lines 92-97 in one equation: the free identifier is looked up only when
    the first test succeeds. *)
Lemma userProfile_failure (G : gmap jsstring global_binding) (self : strategy)
    (err : transport_error) :
  userProfile G self (Failure err)
  = let json := error_json err in
    if api_error_shape json then
      match G !! js "MolchPlusAPIError" with
      | None => Throws (ReferenceError (js "MolchPlusAPIError"))
      | Some (GConstructor c) =>
          Done_error (c (get (get json (js "error")) (js "message"))
                        (get (get json (js "error")) (js "code")))
      | Some (GModule _) =>
          Throws (TypeError (js "MolchPlusAPIError" ++ js " is not a constructor"))
      end
    else if oauth_error_shape json then
      Done_error (UserInfoError (get json (js "error_description")) (get json (js "error")))
    else Done_error (InternalOAuthError (js "Failed to fetch user profile") err).
Proof.
  unfold userProfile, construct_global. cbv zeta.
  destruct (api_error_shape (error_json err)); [|reflexivity].
  destruct (G !! js "MolchPlusAPIError") as [[c|p]|]; reflexivity.
Qed.

(** C2: with the error body [{"error":{"message":"bad","code":7}}] the
    callback is not invoked at all: evaluating [new MolchPlusAPIError(...)]
    raises a ReferenceError, because the module binds the constructor under
    the name [MolchAPIError]. *)
Theorem userProfile_api_error_throws (self : strategy) (status : option Z) :
  userProfile node_globals self
    (Failure {| statusCode := status;
                data := Some (json_text "{'error':{'message':'bad','code':7}}") |})
  = Throws (ReferenceError (js "MolchPlusAPIError")).
Proof. reflexivity. Qed.

(** With the name used on line 93 bound to the constructor the module
    imports, the callback receives the API error with that message and
    code. *)
Lemma userProfile_api_error_if_bound (self : strategy) (status : option Z) :
  userProfile
    {[ js "MolchPlusAPIError" := GConstructor (fun m c => APIError (MolchAPIError m c)) ]}
    self
    (Failure {| statusCode := status;
                data := Some (json_text "{'error':{'message':'bad','code':7}}") |})
  = Done_error (APIError {| api_name := js "MolchAPIError";
                            api_message := VStr (js "bad");
                            api_code := VNum 7 0 |}).
Proof. reflexivity. Qed.

(** C4: with the error body
    [{"error":"invalid_grant","error_description":"expired"}] the callback
    receives a UserInfoError built from the description "expired" and the
    code "invalid_grant", in every global environment. *)
Theorem userProfile_oauth_error (G : gmap jsstring global_binding) (self : strategy)
    (status : option Z) :
  userProfile G self
    (Failure {| statusCode := status;
                data := Some (json_text
                  "{'error':'invalid_grant','error_description':'expired'}") |})
  = Done_error (UserInfoError (VStr (js "expired")) (VStr (js "invalid_grant"))).
Proof. rewrite userProfile_failure. reflexivity. Qed.

(** The fallback of line 97: a failure whose body has neither shape is
    wrapped, together with the original error. *)
Lemma userProfile_fallback (G : gmap jsstring global_binding) (self : strategy)
    (err : transport_error) :
  api_error_shape (error_json err) = false ->
  oauth_error_shape (error_json err) = false ->
  userProfile G self (Failure err)
  = Done_error (InternalOAuthError (js "Failed to fetch user profile") err).
Proof.
  intros H1 H2. rewrite userProfile_failure. cbv zeta. rewrite H1, H2. reflexivity.
Qed.

Lemma error_json_absent (err : transport_error) :
  data err = None -> error_json err = VUndefined.
Proof. unfold error_json. intros ->. reflexivity. Qed.

Lemma error_json_invalid (err : transport_error) (d : jsstring) :
  data err = Some d -> JSON_parse d = None -> error_json err = VUndefined.
Proof.
  unfold error_json. intros -> Hp. rewrite Hp. destruct (truthy (VStr d)); reflexivity.
Qed.

(** An absent body and a body that is not JSON both leave [json] undefined
    and end in the fallback. *)
Lemma userProfile_fallback_no_json (G : gmap jsstring global_binding) (self : strategy)
    (err : transport_error) :
  error_json err = VUndefined ->
  userProfile G self (Failure err)
  = Done_error (InternalOAuthError (js "Failed to fetch user profile") err).
Proof.
  intros H. apply userProfile_fallback; rewrite H; reflexivity.
Qed.

(** C6: not every failure reaches the callback.  Whenever the error body has
    the provider-API shape, the run ends in a ReferenceError and [done] is
    not invoked, so such a failure is thrown instead of being handed over as
    an error value. *)
Theorem userProfile_api_shape_throws (self : strategy) (err : transport_error) :
  api_error_shape (error_json err) = true ->
  userProfile node_globals self (Failure err)
  = Throws (ReferenceError (js "MolchPlusAPIError"))
  /\ forall e, userProfile node_globals self (Failure err) <> Done_error e.
Proof.
  intros H. rewrite userProfile_failure. cbv zeta. rewrite H.
  split; [reflexivity | discriminate].
Qed.

Lemma userProfile_api_shape_throws_witness :
  let err := {| statusCode := Some 403;
                data := Some (json_text "{'error':{'message':'quota','code':403}}") |} in
  let self := {| base_authorizationURL := []; base_tokenURL := []; name := js "molch";
                 _userProfileURL := []; _userProfileFormat := js "molch" |} in
  api_error_shape (error_json err) = true
  /\ userProfile node_globals self (Failure err)
     = Throws (ReferenceError (js "MolchPlusAPIError")).
Proof.
  intros err self. split; [reflexivity|].
  apply (userProfile_api_shape_throws self err). reflexivity.
Defined.

(** ** Profile fetch: the success path *)

(** C5: a body that [JSON.parse] rejects ends in
    [done(new Error('Failed to parse user profile'))]; nothing is thrown. *)
Theorem userProfile_malformed_body (G : gmap jsstring global_binding) (self : strategy)
    (body : jsstring) :
  JSON_parse body = None ->
  userProfile G self (Success body)
  = Done_error (Error (js "Failed to parse user profile"))
  /\ forall x, userProfile G self (Success body) <> Throws x.
Proof.
  intros H. unfold userProfile. rewrite H. split; [reflexivity | discriminate].
Qed.

Lemma userProfile_malformed_body_witness :
  JSON_parse (js "<html>Bad Gateway</html>") = None
  /\ userProfile node_globals
       {| base_authorizationURL := []; base_tokenURL := []; name := js "molch";
          _userProfileURL := []; _userProfileFormat := js "openid" |}
       (Success (js "<html>Bad Gateway</html>"))
     = Done_error (Error (js "Failed to parse user profile")).
Proof.
  split; [reflexivity|].
  apply (userProfile_malformed_body node_globals _ (js "<html>Bad Gateway</html>")).
  reflexivity.
Defined.

(** C3: with the format ['openid'] and a well-formed body the callback is
    not invoked: [OpenIDProfile] is bound nowhere, and evaluating
    [OpenIDProfile.parse(json)] raises a ReferenceError. *)
Theorem userProfile_openid_throws (authz token nm url : jsstring) :
  userProfile node_globals
    {| base_authorizationURL := authz; base_tokenURL := token; name := nm;
       _userProfileURL := url; _userProfileFormat := js "openid" |}
    (Success (json_text "{'sub':'42','preferred_username':'ada','name':'Ada L.'}"))
  = Throws (ReferenceError (js "OpenIDProfile")).
Proof. reflexivity. Qed.

(** In Node's global environment every fetch whose body parses ends in a
    ReferenceError for the parser the format selects. *)
Lemma userProfile_success_throws (self : strategy) (body : jsstring) (json : value) :
  JSON_parse body = Some json ->
  userProfile node_globals self (Success body)
  = Throws (ReferenceError (parser_for (_userProfileFormat self))).
Proof.
  intros H. unfold userProfile, parse_with_global, node_globals.
  rewrite H, lookup_empty. reflexivity.
Qed.

(** With a profile module bound to the name, the result of its [parse] is
    completed with the provider, the raw body and the parsed JSON. *)
Lemma userProfile_success_if_bound (G : gmap jsstring global_binding) (self : strategy)
    (body : jsstring) (json : value) (p : value -> exn + gmap jsstring value)
    (profile : gmap jsstring value) :
  JSON_parse body = Some json ->
  G !! parser_for (_userProfileFormat self) = Some (GModule p) ->
  p json = inr profile ->
  userProfile G self (Success body) = Done_profile (finish_profile profile body json)
  /\ finish_profile profile body json !! js "provider" = Some (VStr (js "molch"))
  /\ finish_profile profile body json !! js "_raw" = Some (VStr body)
  /\ finish_profile profile body json !! js "_json" = Some json.
Proof.
  intros Hj Hg Hp. unfold userProfile, parse_with_global. rewrite Hj, Hg, Hp.
  unfold finish_profile. repeat split.
  - rewrite lookup_insert_ne by (vm_compute; discriminate).
    rewrite lookup_insert_ne by (vm_compute; discriminate).
    apply lookup_insert_eq.
  - rewrite lookup_insert_ne by (vm_compute; discriminate).
    apply lookup_insert_eq.
  - apply lookup_insert_eq.
Qed.

(** ** The format and the parser it selects *)

(** The [switch] of lines 107-114 is driven by the format alone: with a
    profile module bound to each of the two names, a fetch whose body parses
    applies the one named [OpenIDProfile] exactly when the format is
    ['openid'], and the one named [MolchPlusProfile] otherwise. *)
Lemma userProfile_selects_parser_if_bound (G : gmap jsstring global_binding)
    (self : strategy) (body : jsstring) (json : value)
    (openid native : value -> exn + gmap jsstring value) :
  JSON_parse body = Some json ->
  G !! js "OpenIDProfile" = Some (GModule openid) ->
  G !! js "MolchPlusProfile" = Some (GModule native) ->
  userProfile G self (Success body)
  = match (if decide (_userProfileFormat self = js "openid")
           then openid json else native json) with
    | inl x => Throws x
    | inr profile => Done_profile (finish_profile profile body json)
    end.
Proof.
  intros Hj Ho Hn. unfold userProfile, parse_with_global, parser_for, jsstring_eqb.
  rewrite Hj.
  destruct (decide (_userProfileFormat self = js "openid")) as [E|E].
  - rewrite bool_decide_eq_true_2 by exact E. rewrite Ho. reflexivity.
  - rewrite bool_decide_eq_false_2 by exact E. rewrite Hn. reflexivity.
Qed.

(** C8: the format the constructor chose does decide which parser name a
    fetch reaches for, but in the module as it stands neither name is bound:
    for a strategy of either format, a fetch whose body parses applies no
    parser at all.  It ends in a ReferenceError for [OpenIDProfile] when the
    format is ['openid'] and for [MolchPlusProfile] otherwise, and [done]
    never receives a profile. *)
Theorem userProfile_applies_no_parser (pathname_of : jsstring -> jsstring)
    (opts : options) (body : jsstring) (json : value) :
  JSON_parse body = Some json ->
  let self := Strategy pathname_of opts in
  (_userProfileFormat self = js "openid" ->
   userProfile node_globals self (Success body)
   = Throws (ReferenceError (js "OpenIDProfile")))
  /\ (_userProfileFormat self <> js "openid" ->
      userProfile node_globals self (Success body)
      = Throws (ReferenceError (js "MolchPlusProfile")))
  /\ forall profile, userProfile node_globals self (Success body) <> Done_profile profile.
Proof.
  intros Hj self. rewrite (userProfile_success_throws self body json Hj).
  unfold parser_for, jsstring_eqb. split; [|split].
  - intros E. rewrite bool_decide_eq_true_2 by exact E. reflexivity.
  - intros E. rewrite bool_decide_eq_false_2 by exact E. reflexivity.
  - discriminate.
Qed.

Lemma userProfile_applies_no_parser_witness :
  let body := json_text "{'id':'7','displayName':'Ada L.'}" in
  let defaults := {| authorizationURL := None; tokenURL := None; userProfileURL := None |} in
  let native := Strategy (fun _ => js "/oauth2/userinfo/index.pl") defaults in
  let custom := {| authorizationURL := None; tokenURL := None;
                   userProfileURL := Some (js "https://auth.molch.at/oauth2/v3/userinfo") |} in
  let openid := Strategy (fun _ => js "/oauth2/v3/userinfo") custom in
  JSON_parse body
  = Some (VObj [(js "id", VStr (js "7")); (js "displayName", VStr (js "Ada L."))])
  /\ _userProfileFormat native = js "molch"
  /\ userProfile node_globals native (Success body)
     = Throws (ReferenceError (js "MolchPlusProfile"))
  /\ _userProfileFormat openid = js "openid"
  /\ userProfile node_globals openid (Success body)
     = Throws (ReferenceError (js "OpenIDProfile")).
Proof.
  intros body defaults native custom openid.
  assert (Hj : JSON_parse body
               = Some (VObj [(js "id", VStr (js "7"));
                             (js "displayName", VStr (js "Ada L."))]))
    by reflexivity.
  split; [exact Hj|]. split; [reflexivity|]. split; [|split; [reflexivity|]].
  - apply (userProfile_applies_no_parser
             (fun _ => js "/oauth2/userinfo/index.pl") defaults body _ Hj).
    discriminate.
  - apply (userProfile_applies_no_parser
             (fun _ => js "/oauth2/v3/userinfo") custom body _ Hj).
    reflexivity.
Defined.

(** ** Authorization parameters *)

Lemma lookup_copy_if_truthy (opts params : gmap jsstring value) (src key k : jsstring) :
  copy_if_truthy opts src key params !! k
  = if truthy (option_value opts src) && bool_decide (key = k)
    then Some (option_value opts src)
    else params !! k.
Proof.
  unfold copy_if_truthy.
  destruct (truthy (option_value opts src)); simpl; [|reflexivity].
  rewrite lookup_insert.
  case_decide;
    [rewrite bool_decide_eq_true_2 by assumption
    |rewrite bool_decide_eq_false_2 by assumption]; reflexivity.
Qed.

Lemma lookup_flag_if_truthy (opts params : gmap jsstring value) (src key k : jsstring) :
  flag_if_truthy opts src key params !! k
  = if truthy (option_value opts src) && bool_decide (key = k)
    then Some (VBool true)
    else params !! k.
Proof.
  unfold flag_if_truthy.
  destruct (truthy (option_value opts src)); simpl; [|reflexivity].
  rewrite lookup_insert.
  case_decide;
    [rewrite bool_decide_eq_true_2 by assumption
    |rewrite bool_decide_eq_false_2 by assumption]; reflexivity.
Qed.

(** Reading a key of the result: the last assignment to that key wins, and
    there is none unless a test succeeded. *)
Lemma authorizationParams_lookup (opts : gmap jsstring value) (k : jsstring) :
  authorizationParams opts !! k
  = if truthy (option_value opts (js "userID")) && bool_decide (js "user_id" = k)
    then Some (option_value opts (js "userID"))
    else if truthy (option_value opts (js "approvalPrompt")) && bool_decide (js "approval_prompt" = k)
    then Some (option_value opts (js "approvalPrompt"))
    else if truthy (option_value opts (js "openIDRealm")) && bool_decide (js "openid.realm" = k)
    then Some (option_value opts (js "openIDRealm"))
    else if truthy (option_value opts (js "display")) && bool_decide (js "display" = k)
    then Some (option_value opts (js "display"))
    else if truthy (option_value opts (js "includeGrantedScopes"))
            && bool_decide (js "include_granted_scopes" = k)
    then Some (VBool true)
    else if truthy (option_value opts (js "loginHint")) && bool_decide (js "login_hint" = k)
    then Some (option_value opts (js "loginHint"))
    else if truthy (option_value opts (js "prompt")) && bool_decide (js "prompt" = k)
    then Some (option_value opts (js "prompt"))
    else if truthy (option_value opts (js "accessType")) && bool_decide (js "access_type" = k)
    then Some (option_value opts (js "accessType"))
    else None.
Proof.
  unfold authorizationParams. cbv zeta.
  rewrite !lookup_copy_if_truthy, lookup_flag_if_truthy, !lookup_copy_if_truthy.
  rewrite lookup_empty. reflexivity.
Qed.

(** A recognized key is read from its own option alone. *)
Lemma authorizationParams_key (opts : gmap jsstring value) (src key : jsstring) :
  In (src, key) recognized ->
  authorizationParams opts !! key
  = if truthy (option_value opts src)
    then Some (contribution src (option_value opts src))
    else None.
Proof.
  intros Hin. rewrite authorizationParams_lookup.
  simpl in Hin.
  repeat (destruct Hin as [Hin|Hin]; [injection Hin as <- <-|]); [..|contradiction];
    repeat
      (first [ rewrite (bool_decide_eq_false_2 (_ = _)) by (vm_compute; discriminate)
             | rewrite (bool_decide_eq_true_2 (_ = _)) by reflexivity
             | rewrite andb_false_r
             | rewrite andb_true_r ]);
    unfold contribution;
    first [ rewrite (decide_False (P := _ = _)) by (vm_compute; discriminate)
          | rewrite (decide_True (P := _ = _)) by reflexivity ];
    reflexivity.
Qed.

(** A key that is present comes from a recognized option with a truthy
    value. *)
Lemma authorizationParams_lookup_Some (opts : gmap jsstring value) (k : jsstring) (v : value) :
  authorizationParams opts !! k = Some v ->
  exists src, In (src, k) recognized
              /\ truthy (option_value opts src) = true
              /\ v = contribution src (option_value opts src).
Proof.
  rewrite authorizationParams_lookup. intros H.
  repeat match type of H with
  | (if ?t && bool_decide (?key = k) then _ else _) = _ =>
      let E := fresh "E" in
      destruct t eqn:?; cbn [andb] in H;
      [ destruct (bool_decide (key = k)) eqn:E; cbn iota in H;
        [ apply bool_decide_eq_true_1 in E; subst k | ]
      | ]
  end; try discriminate H;
  injection H as <-;
  eexists; (split; [|split; [eassumption|reflexivity]]);
  simpl; tauto.
Qed.

Lemma option_value_truthy_supplied (opts : gmap jsstring value) (src : jsstring) :
  truthy (option_value opts src) = true -> is_Some (opts !! src).
Proof.
  unfold option_value. destruct (opts !! src) as [v|]; simpl; [eauto | discriminate].
Qed.

(** C7: for [{includeGrantedScopes: true, prompt: "consent"}] the result is
    exactly [{include_granted_scopes: true, prompt: "consent"}]; in general
    every key of the result is the key of a recognized option that was
    supplied, a recognized key is present only if its own option was
    supplied, and options outside the eight do not influence the result. *)
Theorem authorizationParams_exact_keys :
  authorizationParams
    {[ js "includeGrantedScopes" := VBool true; js "prompt" := VStr (js "consent") ]}
  = {[ js "include_granted_scopes" := VBool true; js "prompt" := VStr (js "consent") ]}
  /\ (forall (opts : gmap jsstring value) (k : jsstring),
        is_Some (authorizationParams opts !! k) ->
        exists src, In (src, k) recognized /\ is_Some (opts !! src))
  /\ (forall (opts : gmap jsstring value) (src key : jsstring),
        In (src, key) recognized ->
        is_Some (authorizationParams opts !! key) -> is_Some (opts !! src))
  /\ (forall opts opts' : gmap jsstring value,
        (forall src key, In (src, key) recognized -> opts !! src = opts' !! src) ->
        authorizationParams opts = authorizationParams opts').
Proof.
  split; [vm_compute; reflexivity|]. split; [|split].
  - intros opts k [v Hv].
    destruct (authorizationParams_lookup_Some opts k v Hv) as (src & Hin & Ht & _).
    exists src. split; [exact Hin | apply option_value_truthy_supplied, Ht].
  - intros opts src key Hin [v Hv].
    rewrite (authorizationParams_key opts src key Hin) in Hv.
    destruct (truthy (option_value opts src)) eqn:Ht; [|discriminate].
    apply option_value_truthy_supplied, Ht.
  - intros opts opts' Hsame. apply map_eq. intros k.
    rewrite !authorizationParams_lookup. unfold option_value.
    repeat match goal with
    | |- context [opts !! js ?name] =>
        rewrite (Hsame (js name) _ ltac:(simpl; eauto 10))
    end.
    reflexivity.
Qed.

Lemma authorizationParams_exact_keys_witness :
  is_Some (authorizationParams
             {[ js "includeGrantedScopes" := VBool true;
                js "prompt" := VStr (js "consent");
                js "scope" := VStr (js "email") ]} !! js "prompt")
  /\ exists src, In (src, js "prompt") recognized
       /\ is_Some (({[ js "includeGrantedScopes" := VBool true;
                       js "prompt" := VStr (js "consent");
                       js "scope" := VStr (js "email") ]} : gmap jsstring value) !! src).
Proof.
  assert (H : is_Some (authorizationParams
             {[ js "includeGrantedScopes" := VBool true;
                js "prompt" := VStr (js "consent");
                js "scope" := VStr (js "email") ]} !! js "prompt")).
  { exists (VStr (js "consent")). vm_compute. reflexivity. }
  split; [exact H|].
  exact (proj1 (proj2 authorizationParams_exact_keys) _ _ H).
Defined.

(** C9: whatever truthy value [includeGrantedScopes] has, the parameter
    [include_granted_scopes] is the boolean [true]. *)
Theorem include_granted_scopes_is_true (opts : gmap jsstring value) (v : value) :
  opts !! js "includeGrantedScopes" = Some v ->
  truthy v = true ->
  authorizationParams opts !! js "include_granted_scopes" = Some (VBool true).
Proof.
  intros Hv Ht.
  rewrite (authorizationParams_key opts (js "includeGrantedScopes")
             (js "include_granted_scopes")) by (simpl; tauto).
  unfold option_value. rewrite Hv. simpl. rewrite Ht. reflexivity.
Qed.

Lemma include_granted_scopes_is_true_witness :
  authorizationParams {[ js "includeGrantedScopes" := VStr (js "no") ]}
    !! js "include_granted_scopes" = Some (VBool true)
  /\ authorizationParams {[ js "includeGrantedScopes" := VNum 1 0 ]}
       !! js "include_granted_scopes" = Some (VBool true).
Proof.
  split.
  - apply (include_granted_scopes_is_true _ (VStr (js "no"))); reflexivity.
  - apply (include_granted_scopes_is_true _ (VNum 1 0)); reflexivity.
Defined.

(** C10: a recognized option supplied with a falsy value leaves its key out
    of the result, as if the option were absent. *)
Theorem falsy_option_is_omitted (opts : gmap jsstring value) (src key : jsstring) (v : value) :
  In (src, key) recognized ->
  opts !! src = Some v ->
  truthy v = false ->
  authorizationParams opts !! key = None
  /\ authorizationParams opts !! key = authorizationParams (delete src opts) !! key.
Proof.
  intros Hin Hv Ht.
  rewrite !(authorizationParams_key _ src key Hin).
  unfold option_value. rewrite Hv, lookup_delete_eq. simpl. rewrite Ht.
  split; reflexivity.
Qed.

Lemma falsy_option_is_omitted_witness :
  authorizationParams {[ js "prompt" := VStr []; js "accessType" := VNum 0 0 ]}
    !! js "prompt" = None
  /\ authorizationParams {[ js "prompt" := VStr []; js "accessType" := VNum 0 0 ]}
       !! js "access_type" = None.
Proof.
  split.
  - apply (falsy_option_is_omitted _ (js "prompt") (js "prompt") (VStr []));
      [simpl; tauto | reflexivity | reflexivity].
  - apply (falsy_option_is_omitted _ (js "accessType") (js "access_type") (VNum 0 0));
      [simpl; tauto | reflexivity | reflexivity].
Defined.

(** * Further properties *)

(** ** Format selection, completely *)

Lemma indexOf_occurrence (p front back : jsstring) :
  p = front ++ js "/userinfo" ++ back ->
  0 <= indexOf p (js "/userinfo") <= str_length front.
Proof.
  intros ->. unfold indexOf.
  pose proof (indexOf_from_first (js "/userinfo") front back 0). lia.
Qed.

Lemma format_of_pathname_molch (p : jsstring) :
  indexOf p (js "/userinfo") <> str_length p - 9 ->
  format_of_pathname p = js "molch".
Proof.
  intros H. unfold format_of_pathname.
  change (str_length (js "/userinfo")) with 9.
  destruct (Z.eqb_spec (indexOf p (js "/userinfo")) (str_length p - 9));
    [contradiction | reflexivity].
Qed.


(** A pathname shorter than eight code units, and a pathname in which
    ['/userinfo'] is followed by anything at all, get the format ['molch']. *)
Theorem format_molch_when (p : jsstring) :
  str_length p < 8
  \/ (exists front back, p = front ++ js "/userinfo" ++ back /\ back <> []) ->
  format_of_pathname p = js "molch".
Proof.
  intros [Hshort|(front & back & Hp & Hb)]; apply format_of_pathname_molch.
  - destruct (indexOf_from_sound (js "/userinfo") p 0) as [[Hm _]|(f0 & b0 & Hs & Hi)].
    + fold (indexOf p (js "/userinfo")) in Hm. lia.
    + rewrite Hs in Hshort. rewrite !str_length_app in Hshort.
      change (str_length (js "/userinfo")) with 9 in Hshort.
      unfold str_length in Hshort. lia.
  - pose proof (indexOf_occurrence p front back Hp) as Ho.
    rewrite Hp at 2. rewrite !str_length_app.
    change (str_length (js "/userinfo")) with 9.
    destruct back; [contradiction|]. unfold str_length. simpl length.
    unfold str_length in Ho. lia.
Qed.

Lemma format_molch_when_witness :
  format_of_pathname (js "/") = js "molch"
  /\ format_of_pathname (js "/oauth2/userinfo/index.pl") = js "molch".
Proof.
  split.
  - apply format_molch_when. left. vm_compute. reflexivity.
  - apply format_molch_when. right.
    exists (js "/oauth2"), (js "/index.pl"). split; [reflexivity | discriminate].
Defined.

(** ** Construction *)

(** The constructed strategy is named ['molch'] and has no empty endpoint:
    an option given as the empty string is replaced by its default exactly
    like a missing one. *)
Theorem Strategy_endpoints (pathname_of : jsstring -> jsstring) (opts : options) :
  let self := Strategy pathname_of opts in
  name self = js "molch"
  /\ base_authorizationURL self <> []
  /\ base_tokenURL self <> []
  /\ _userProfileURL self <> []
  /\ self = Strategy pathname_of
              {| authorizationURL := without_empty (authorizationURL opts);
                 tokenURL := without_empty (tokenURL opts);
                 userProfileURL := without_empty (userProfileURL opts) |}.
Proof.
  destruct opts as [[[|a au]|] [[|t tu]|] [[|u uu]|]]; cbv zeta;
    repeat split; discriminate.
Qed.

(** ** Profile fetch: how failures are classified *)

Lemma JSON_parse_nonempty (d : jsstring) (j : value) :
  JSON_parse d = Some j -> truthy (VStr d) = true.
Proof. destruct d; [discriminate | reflexivity]. Qed.

Lemma error_json_parsed (err : transport_error) (d : jsstring) (j : value) :
  data err = Some d -> JSON_parse d = Some j -> error_json err = j.
Proof.
  intros Hd Hj. unfold error_json.
  rewrite Hd, (JSON_parse_nonempty d j Hj), Hj. reflexivity.
Qed.

(** A failure without a usable body (no [data], an empty [data], or a
    [data] that is not JSON) is reported as the generic error, which carries
    the original error; this holds in every global environment. *)
Theorem userProfile_failure_without_json (G : gmap jsstring global_binding)
    (self : strategy) (err : transport_error) :
  data err = None \/ data err = Some []
  \/ (exists d, data err = Some d /\ JSON_parse d = None) ->
  userProfile G self (Failure err)
  = Done_error (InternalOAuthError (js "Failed to fetch user profile") err).
Proof.
  intros H. apply userProfile_fallback_no_json.
  destruct H as [H|[H|(d & Hd & Hp)]].
  - apply error_json_absent, H.
  - unfold error_json. rewrite H. reflexivity.
  - apply (error_json_invalid err d Hd Hp).
Qed.

Lemma userProfile_failure_without_json_witness :
  let socket := {| statusCode := None; data := None |} in
  let empty := {| statusCode := Some 500; data := Some [] |} in
  let html := {| statusCode := Some 502; data := Some (js "<html>Bad Gateway</html>") |} in
  let self := {| base_authorizationURL := []; base_tokenURL := []; name := js "molch";
                 _userProfileURL := []; _userProfileFormat := js "molch" |} in
  userProfile node_globals self (Failure socket)
  = Done_error (InternalOAuthError (js "Failed to fetch user profile") socket)
  /\ userProfile node_globals self (Failure empty)
     = Done_error (InternalOAuthError (js "Failed to fetch user profile") empty)
  /\ userProfile node_globals self (Failure html)
     = Done_error (InternalOAuthError (js "Failed to fetch user profile") html).
Proof.
  intros socket empty html self. split; [|split].
  - apply userProfile_failure_without_json. left. reflexivity.
  - apply userProfile_failure_without_json. right. left. reflexivity.
  - apply userProfile_failure_without_json. right. right.
    exists (js "<html>Bad Gateway</html>"). split; reflexivity.
Defined.

(** A JSON body without a truthy top-level [error] member is never
    classified, whatever else it holds: [null], a number, a string, an array,
    or an object with only [error_description] or [message] all end in the
    generic error, and reading a property of such a body never throws. *)
Theorem userProfile_failure_without_error_member (G : gmap jsstring global_binding)
    (self : strategy) (err : transport_error) (d : jsstring) (j : value) :
  data err = Some d ->
  JSON_parse d = Some j ->
  truthy (get j (js "error")) = false ->
  userProfile G self (Failure err)
  = Done_error (InternalOAuthError (js "Failed to fetch user profile") err).
Proof.
  intros Hd Hj He. apply userProfile_fallback;
    rewrite (error_json_parsed err d j Hd Hj).
  - unfold api_error_shape. rewrite He, andb_false_r. reflexivity.
  - unfold oauth_error_shape. rewrite He, andb_false_r. reflexivity.
Qed.

Lemma userProfile_failure_without_error_member_witness :
  let self := {| base_authorizationURL := []; base_tokenURL := []; name := js "molch";
                 _userProfileURL := []; _userProfileFormat := js "openid" |} in
  let null := {| statusCode := Some 500; data := Some (js "null") |} in
  let list := {| statusCode := Some 500; data := Some (json_text "['error']") |} in
  let partial := {| statusCode := Some 400;
                    data := Some (json_text
                      "{'error_description':'expired','message':'bad','error':''}") |} in
  userProfile node_globals self (Failure null)
  = Done_error (InternalOAuthError (js "Failed to fetch user profile") null)
  /\ userProfile node_globals self (Failure list)
     = Done_error (InternalOAuthError (js "Failed to fetch user profile") list)
  /\ userProfile node_globals self (Failure partial)
     = Done_error (InternalOAuthError (js "Failed to fetch user profile") partial).
Proof.
  intros self null list partial. split; [|split].
  - apply (userProfile_failure_without_error_member _ _ null (js "null") VNull);
      reflexivity.
  - apply (userProfile_failure_without_error_member _ _ list (json_text "['error']")
             (VArr [VStr (js "error")])); reflexivity.
  - apply (userProfile_failure_without_error_member _ _ partial
             (json_text "{'error_description':'expired','message':'bad','error':''}")
             (VObj [(js "error_description", VStr (js "expired"));
                    (js "message", VStr (js "bad")); (js "error", VStr [])]));
      reflexivity.
Defined.

(** A body whose [error] member is truthy but has no truthy [message] (in
    particular every [error] that is a string, a number or [true]) and whose
    [error_description] is truthy is reported as
    [UserInfoError(error_description, error)], with both values passed on
    unchanged, in every global environment. *)
Theorem userProfile_failure_oauth_shape (G : gmap jsstring global_binding)
    (self : strategy) (err : transport_error) (d : jsstring)
    (fields : list (jsstring * value)) (e description : value) :
  data err = Some d ->
  JSON_parse d = Some (VObj fields) ->
  assoc (js "error") fields = Some e ->
  truthy e = true ->
  truthy (get e (js "message")) = false ->
  assoc (js "error_description") fields = Some description ->
  truthy description = true ->
  userProfile G self (Failure err) = Done_error (UserInfoError description e).
Proof.
  intros Hd Hj He Hte Hm Hdesc Htd.
  assert (Ge : get (VObj fields) (js "error") = e)
    by (unfold get; rewrite He; reflexivity).
  assert (Gd : get (VObj fields) (js "error_description") = description)
    by (unfold get; rewrite Hdesc; reflexivity).
  rewrite userProfile_failure, (error_json_parsed err d _ Hd Hj). cbv zeta.
  unfold api_error_shape, oauth_error_shape.
  rewrite Ge, Gd, Hte, Hm, Htd. reflexivity.
Qed.

Lemma userProfile_failure_oauth_shape_witness :
  let self := {| base_authorizationURL := []; base_tokenURL := []; name := js "molch";
                 _userProfileURL := []; _userProfileFormat := js "molch" |} in
  let err := {| statusCode := Some 401;
                data := Some (json_text
                  "{'error':{'code':401},'error_description':'Unauthorized'}") |} in
  userProfile node_globals self (Failure err)
  = Done_error (UserInfoError (VStr (js "Unauthorized")) (VObj [(js "code", VNum 401 0)])).
Proof.
  intros self err.
  apply (userProfile_failure_oauth_shape _ _ err
           (json_text "{'error':{'code':401},'error_description':'Unauthorized'}")
           [(js "error", VObj [(js "code", VNum 401 0)]);
            (js "error_description", VStr (js "Unauthorized"))]);
    reflexivity.
Defined.

(** ** Profile fetch: what the success path hands over *)

(** In Node's global environment no response ever leads to
    [done(null, profile)]: a failure is reported or thrown, and a body that
    parses stops at the unbound parser name. *)
Theorem userProfile_never_delivers_profile (self : strategy) (r : response)
    (profile : gmap jsstring value) :
  userProfile node_globals self r <> Done_profile profile.
Proof.
  destruct r as [err|body].
  - rewrite userProfile_failure. cbv zeta.
    destruct (api_error_shape (error_json err)); [discriminate|].
    destruct (oauth_error_shape (error_json err)); discriminate.
  - destruct (JSON_parse body) as [json|] eqn:Hj.
    + rewrite (userProfile_success_throws self body json Hj). discriminate.
    + unfold userProfile. rewrite Hj. discriminate.
Qed.

(** With a profile module bound to the selected name, lines 116-118 overwrite
    [provider], [_raw] and [_json] whatever the parser had put there, and
    every other property of the parser's profile reaches [done] unchanged. *)
Theorem userProfile_profile_frame (G : gmap jsstring global_binding) (self : strategy)
    (body : jsstring) (json : value) (p : value -> exn + gmap jsstring value)
    (profile : gmap jsstring value) :
  JSON_parse body = Some json ->
  G !! parser_for (_userProfileFormat self) = Some (GModule p) ->
  p json = inr profile ->
  exists out,
    userProfile G self (Success body) = Done_profile out
    /\ out !! js "provider" = Some (VStr (js "molch"))
    /\ out !! js "_raw" = Some (VStr body)
    /\ out !! js "_json" = Some json
    /\ (forall k, k <> js "provider" -> k <> js "_raw" -> k <> js "_json" ->
                  out !! k = profile !! k)
    /\ dom out = dom profile ∪ {[ js "provider"; js "_raw"; js "_json" ]}.
Proof.
  intros Hj Hg Hp. exists (finish_profile profile body json).
  destruct (userProfile_success_if_bound G self body json p profile Hj Hg Hp)
    as (Hu & H1 & H2 & H3).
  repeat split; try assumption.
  - intros k K1 K2 K3. unfold finish_profile.
    rewrite !lookup_insert_ne by congruence. reflexivity.
  - unfold finish_profile. rewrite !dom_insert_L.
    apply set_eq. intros k. rewrite !elem_of_union, !elem_of_singleton. tauto.
Qed.

Lemma userProfile_profile_frame_witness :
  let G : gmap jsstring global_binding :=
    {[ js "MolchPlusProfile" :=
         GModule (fun j => inr {[ js "id" := get j (js "id");
                                  js "provider" := VStr (js "other") ]}) ]} in
  let self := {| base_authorizationURL := []; base_tokenURL := []; name := js "molch";
                 _userProfileURL := []; _userProfileFormat := js "molch" |} in
  exists out,
    userProfile G self (Success (json_text "{'id':'7'}")) = Done_profile out
    /\ out !! js "provider" = Some (VStr (js "molch"))
    /\ out !! js "id" = Some (VStr (js "7")).
Proof.
  intros G self.
  destruct (userProfile_profile_frame G self (json_text "{'id':'7'}")
              (VObj [(js "id", VStr (js "7"))])
              (fun j => inr {[ js "id" := get j (js "id");
                               js "provider" := VStr (js "other") ]})
              {[ js "id" := VStr (js "7"); js "provider" := VStr (js "other") ]}
              eq_refl eq_refl eq_refl)
    as (out & Hu & Hp & _ & _ & Hk & _).
  exists out. split; [exact Hu|]. split; [exact Hp|].
  rewrite Hk by discriminate. reflexivity.
Defined.

(** ** Authorization parameters as a whole *)

(** The eight assignments, folded over [recognized]. *)
Lemma authorizationParams_fold (opts : gmap jsstring value) :
  authorizationParams opts = foldl (assign opts) ∅ recognized.
Proof. reflexivity. Qed.

Lemma recognized_keys_NoDup : NoDup recognized.*2.
Proof. apply (bool_decide_unpack _). vm_compute. exact I. Qed.

Lemma foldl_assign_size (opts : gmap jsstring value) (l : list (jsstring * jsstring)) :
  forall params : gmap jsstring value,
    NoDup l.*2 ->
    (forall k, k ∈ l.*2 -> params !! k = None) ->
    size (foldl (assign opts) params l)
    = (size params
       + length (List.filter (fun entry => truthy (option_value opts entry.1)) l))%nat.
Proof.
  induction l as [|[src key] l IH]; intros params Hnd Hfresh; simpl.
  - lia.
  - apply NoDup_cons in Hnd as [Hkey Hnd]. unfold assign at 2. cbn [fst snd].
    destruct (truthy (option_value opts src)).
    + rewrite IH.
      * rewrite map_size_insert_None by (apply Hfresh; left). simpl. lia.
      * exact Hnd.
      * intros k Hk. rewrite lookup_insert_ne.
        -- apply Hfresh. right. exact Hk.
        -- intros ->. contradiction.
    + apply IH; [exact Hnd|]. intros k Hk. apply Hfresh. right. exact Hk.
Qed.

(** The result has exactly one key for each recognized option with a truthy
    value, hence at most eight. *)
Theorem authorizationParams_size (opts : gmap jsstring value) :
  size (authorizationParams opts) = length (supplied opts)
  /\ (size (authorizationParams opts) <= 8)%nat.
Proof.
  assert (H : size (authorizationParams opts) = length (supplied opts)).
  { rewrite authorizationParams_fold, foldl_assign_size.
    - rewrite map_size_empty. reflexivity.
    - exact recognized_keys_NoDup.
    - intros k _. apply lookup_empty. }
  split; [exact H|]. rewrite H. unfold supplied.
  pose proof (List.filter_length_le
                (fun entry => truthy (option_value opts entry.1)) recognized) as Hle.
  simpl length in Hle at 2. exact Hle.
Qed.

(** Without a truthy recognized option the result is the empty object; this
    covers the empty options object and options that are all falsy or
    unrecognized. *)
Theorem authorizationParams_nothing_supplied (opts : gmap jsstring value) :
  (forall src key, In (src, key) recognized -> truthy (option_value opts src) = false) ->
  authorizationParams opts = ∅.
Proof.
  intros H. apply map_eq. intros k. rewrite lookup_empty.
  destruct (authorizationParams opts !! k) as [v|] eqn:Hk; [|reflexivity].
  destruct (authorizationParams_lookup_Some opts k v Hk) as (src & Hin & Ht & _).
  rewrite (H src k Hin) in Ht. discriminate.
Qed.

Lemma authorizationParams_nothing_supplied_witness :
  authorizationParams ∅ = ∅
  /\ authorizationParams
       {[ js "scope" := VStr (js "email"); js "prompt" := VStr [];
          js "includeGrantedScopes" := VBool false; js "userID" := VNull ]} = ∅.
Proof.
  split; apply authorizationParams_nothing_supplied; intros src key Hin; simpl in Hin;
    repeat (destruct Hin as [Hin|Hin]; [injection Hin as <- <-; reflexivity|]);
    contradiction.
Defined.

(** Apart from [includeGrantedScopes], a truthy option reaches its parameter
    unchanged, whatever kind of value it is. *)
Theorem authorizationParams_copies_value (opts : gmap jsstring value)
    (src key : jsstring) (v : value) :
  In (src, key) recognized ->
  src <> js "includeGrantedScopes" ->
  opts !! src = Some v ->
  truthy v = true ->
  authorizationParams opts !! key = Some v.
Proof.
  intros Hin Hsrc Hv Ht. rewrite (authorizationParams_key opts src key Hin).
  unfold option_value, contribution. rewrite Hv. simpl. rewrite Ht.
  rewrite decide_False by exact Hsrc. reflexivity.
Qed.

Lemma authorizationParams_copies_value_witness :
  authorizationParams {[ js "openIDRealm" := VStr (js "https://www.example.net/") ]}
    !! js "openid.realm" = Some (VStr (js "https://www.example.net/"))
  /\ authorizationParams {[ js "accessType" := VArr [VStr (js "offline")] ]}
       !! js "access_type" = Some (VArr [VStr (js "offline")]).
Proof.
  split.
  - apply (authorizationParams_copies_value _ (js "openIDRealm"));
      [simpl; tauto | discriminate | reflexivity | reflexivity].
  - apply (authorizationParams_copies_value _ (js "accessType"));
      [simpl; tauto | discriminate | reflexivity | reflexivity].
Defined.

(** Every value in the result is truthy, and [include_granted_scopes] is
    never anything but [true]. *)
Theorem authorizationParams_values_truthy (opts : gmap jsstring value)
    (k : jsstring) (v : value) :
  authorizationParams opts !! k = Some v ->
  truthy v = true
  /\ (k = js "include_granted_scopes" -> v = VBool true).
Proof.
  intros Hk.
  destruct (authorizationParams_lookup_Some opts k v Hk) as (src & Hin & Ht & ->).
  split.
  - unfold contribution. case_decide; [reflexivity | exact Ht].
  - intros ->. simpl in Hin.
    repeat (destruct Hin as [Hin|Hin];
            [injection Hin as <-; try reflexivity; vm_compute in H; discriminate H|]).
    contradiction.
Qed.

Lemma authorizationParams_values_truthy_witness :
  truthy (VStr (js "popup")) = true
  /\ (js "display" = js "include_granted_scopes" -> VStr (js "popup") = VBool true).
Proof.
  apply (authorizationParams_values_truthy
           {[ js "display" := VStr (js "popup"); js "loginHint" := VStr [] ]}
           (js "display")).
  reflexivity.
Defined.

(** An option decides its own parameter and no other: setting or replacing
    the option named [n] leaves every key that [n] does not feed as it
    was. *)
Theorem authorizationParams_local (opts : gmap jsstring value) (n k : jsstring)
    (v : value) :
  (forall key, In (n, key) recognized -> key <> k) ->
  authorizationParams (<[n := v]> opts) !! k = authorizationParams opts !! k.
Proof.
  intros Hn. rewrite !authorizationParams_lookup.
  assert (Hsame : forall src key, In (src, key) recognized ->
            truthy (option_value (<[n := v]> opts) src) && bool_decide (key = k)
            = truthy (option_value opts src) && bool_decide (key = k)
            /\ (bool_decide (key = k) = true ->
                option_value (<[n := v]> opts) src = option_value opts src)).
  { intros src key Hin. destruct (decide (key = k)) as [E|E].
    - assert (src <> n) by (intros ->; exact (Hn key Hin E)).
      unfold option_value. rewrite lookup_insert_ne by congruence.
      split; reflexivity.
    - rewrite bool_decide_eq_false_2 by exact E. rewrite !andb_false_r.
      split; [reflexivity | discriminate]. }
  repeat match goal with
  | |- (if truthy (option_value _ (js ?src)) && bool_decide (js ?key = k)
        then _ else _) = _ =>
      let Hin := fresh "Hin" in
      let Hv := fresh "Hv" in
      let Hc := fresh "Hc" in
      assert (Hin : In (js src, js key) recognized) by (simpl; tauto);
      destruct (Hsame _ _ Hin) as [-> Hv]; clear Hin;
      destruct (truthy (option_value opts (js src)) && bool_decide (js key = k)) eqn:Hc;
      [ apply andb_prop in Hc as [_ Hc]; try rewrite (Hv Hc); reflexivity
      | clear Hv Hc ]
  end.
  reflexivity.
Qed.

Lemma authorizationParams_local_witness :
  authorizationParams
    (<[js "loginHint" := VStr (js "ada@example.net")]>
       {[ js "prompt" := VStr (js "consent") ]}) !! js "prompt"
  = authorizationParams {[ js "prompt" := VStr (js "consent") ]} !! js "prompt".
Proof.
  apply authorizationParams_local. intros key Hin. simpl in Hin.
  repeat (destruct Hin as [Hin|Hin];
          [apply pair_equal_spec in Hin as [Hsrc <-];
           first [ vm_compute in Hsrc; discriminate Hsrc | vm_compute; discriminate ]|]).
  contradiction.
Defined.
